(** * Modal display coordination of the blog front end

    A shallow embedding of [src/components/modal.js] (the [useModal] hook and
    the [ModalInfo] markup) and of the query-string reaction of
    [src/components/layout.js], with the properties of the design
    specification stated over it.

    React is modelled by what the components rely on:
    - a [useState] cell keeps its value between renders, and a setter whose
      argument is identical ([Object.is]) to the stored value changes nothing;
    - a [useEffect] body runs after the commit of a render when it is the
      first commit or when one of its dependencies differs from the value it
      had at the previous commit; the body sees the values of that render;
    - setters called by effect bodies are queued, applied once the effects of
      the commit have run, and followed by a new render when a cell changed. *)

From Stdlib Require Import String List Bool Arith Lia.
Import ListNotations.
Open Scope string_scope.

(** ** JavaScript values

    The values that can reach the key cell and the query parameter:
    [undefined], [null], a string, or some object or array, known by its
    reference. *)

Inductive jsval : Type :=
| JUndefined
| JNull
| JString (s : string)
| JObject (ref : nat).

(** [a === b]. On this domain (no numbers) it coincides with [Object.is]. *)
Definition strict_eq (a b : jsval) : bool :=
  match a, b with
  | JUndefined, JUndefined => true
  | JNull, JNull => true
  | JString s, JString t => String.eqb s t
  | JObject r, JObject q => Nat.eqb r q
  | _, _ => false
  end.

Definition object_is : jsval -> jsval -> bool := strict_eq.

(** Truthiness of a value that is a string or [undefined]
    ([None] stands for [undefined]). *)
Definition truthy (v : option string) : bool :=
  match v with
  | Some s => negb (String.eqb s "")
  | None => false
  end.

(** Has a dependency changed since the previous commit?  [None] is the
    first commit, where every effect runs. *)
Definition dep_changed {A : Type} (same : A -> A -> bool)
           (prev : option A) (cur : A) : bool :=
  match prev with
  | None => true
  | Some p => negb (same p cur)
  end.

(** ** The modal controller: [modal.js] *)

Module Modal.

Definition EMAIL_CONFIRMATION : string := "email-confirmation".
Definition CONFIRMATION_SUCCESS : string := "confirmation-success".

Record entry : Type := Entry {
  type : string;
  title : string;
  description : string
}.

Definition MODAL_DATA : list entry :=
  [ {| type := EMAIL_CONFIRMATION;
       title := "Success!";
       description := "Now check your email to confirm your subscription" |};
    {| type := CONFIRMATION_SUCCESS;
       title := "Done!";
       description := "Thanks for subscribing!" |} ].

Definition entry_eqb (a b : entry) : bool :=
  String.eqb (type a) (type b) && String.eqb (title a) (title b)
  && String.eqb (description a) (description b).

(** The value of the [info] cell: the object literal of
    [useState({})], [undefined], or an element of [MODAL_DATA]. *)
Inductive info_val : Type :=
| InfoEmpty
| InfoUndefined
| InfoEntry (e : entry).

(** [Object.is] on the values of the [info] cell.  The cell only ever holds
    the initial literal or elements of [MODAL_DATA] themselves ([filter]
    keeps the references); the elements of the table differ in every field,
    so identity of reference and equality of content agree on them. *)
Definition info_is (a b : info_val) : bool :=
  match a, b with
  | InfoEmpty, InfoEmpty => true
  | InfoUndefined, InfoUndefined => true
  | InfoEntry e, InfoEntry f => entry_eqb e f
  | _, _ => false
  end.

(** [info?.title] and [info?.description]. *)
Definition info_title (i : info_val) : option string :=
  match i with
  | InfoEntry e => Some (title e)
  | _ => None
  end.

Definition info_description (i : info_val) : option string :=
  match i with
  | InfoEntry e => Some (description e)
  | _ => None
  end.

(** The state cells of the hook: [type], [info], and the [isShow] cell of
    [usePortal], created with [defaultShow: false]. *)
Record cells : Type := Cells {
  c_type : jsval;
  c_info : info_val;
  isShow : bool
}.

Definition cells_eqb (a b : cells) : bool :=
  object_is (c_type a) (c_type b) && info_is (c_info a) (c_info b)
  && Bool.eqb (isShow a) (isShow b).

Definition initial_cells : cells :=
  {| c_type := JNull; c_info := InfoEmpty; isShow := false |}.

(** Setter calls queued by effect bodies. *)
Inductive update : Type :=
| SetType (k : jsval)
| SetInfo (i : info_val)
| SetIsShow (b : bool).

Definition apply_update (c : cells) (u : update) : cells :=
  match u with
  | SetType k => {| c_type := k; c_info := c_info c; isShow := isShow c |}
  | SetInfo i => {| c_type := c_type c; c_info := i; isShow := isShow c |}
  | SetIsShow b => {| c_type := c_type c; c_info := c_info c; isShow := b |}
  end.

Definition apply_updates (c : cells) (q : list update) : cells :=
  fold_left apply_update q c.

(** [MODAL_DATA.filter(item => item.type === type)] *)
Definition matching (t : jsval) : list entry :=
  filter (fun item => strict_eq (JString (type item)) t) MODAL_DATA.

(** [setInfo(...info)]: the setter receives the first element of the
    spread array, and [undefined] when the array is empty. *)
Definition spread_arg (l : list entry) : info_val :=
  match l with
  | [] => InfoUndefined
  | e :: _ => InfoEntry e
  end.

(** First effect, dependencies [[type]]. *)
Definition effect_type (c : cells) : list update :=
  let info := matching (c_type c) in
  [SetInfo (spread_arg info)].

(** Second effect, dependencies [[info]]. *)
Definition effect_info (c : cells) : list update :=
  if truthy (info_title (c_info c)) then [SetIsShow true] else [].

(** The dependencies recorded at the previous commit. *)
Record deps : Type := Deps {
  d_type : option jsval;
  d_info : option info_val
}.

Definition no_deps : deps := {| d_type := None; d_info := None |}.

Definition deps_of (c : cells) : deps :=
  {| d_type := Some (c_type c); d_info := Some (c_info c) |}.

(** The setter calls of the effects of one commit, in the order of their
    declaration. *)
Definition effects (d : deps) (c : cells) : list update :=
  (if dep_changed object_is (d_type d) (c_type c) then effect_type c else [])
  ++ (if dep_changed info_is (d_info d) (c_info c) then effect_info c else []).

(** A component that calls [useModal] and nothing else. *)
Record fiber : Type := Fiber {
  hooks : cells;
  committed : deps
}.

Definition commit (f : fiber) : fiber :=
  {| hooks := apply_updates (hooks f) (effects (committed f) (hooks f));
     committed := deps_of (hooks f) |}.

(** Render and commit until a commit leaves the cells as they were.
    [None]: the passes allowed were not enough. *)
Fixpoint rerender (passes : nat) (f : fiber) : option fiber :=
  match passes with
  | 0 => None
  | S n =>
      let f' := commit f in
      if cells_eqb (hooks f') (hooks f) then Some f' else rerender n f'
  end.

Definition render_budget : nat := 8.

Definition mount : option fiber :=
  rerender render_budget {| hooks := initial_cells; committed := no_deps |}.

(** Setters called outside of an effect (by the host or by an event
    handler) are applied together; nothing happens when every cell keeps
    its value. *)
Definition dispatch (q : list update) (f : fiber) : option fiber :=
  let c := apply_updates (hooks f) q in
  if cells_eqb c (hooks f) then Some f
  else rerender render_budget {| hooks := c; committed := committed f |}.

(** The operations returned by [useModal]; [show] and [hide] are those of
    [usePortal]. *)
Definition setType (k : jsval) : fiber -> option fiber :=
  dispatch [SetType k].
Definition show : fiber -> option fiber := dispatch [SetIsShow true].
Definition hide : fiber -> option fiber := dispatch [SetIsShow false].

(** What [<Modal />] puts on the screen: the portal renders its children
    only while [isShow] holds; [ModalInfo] then shows title and
    description. *)
Record view : Type := View {
  v_title : option string;
  v_description : option string
}.

Definition Modal (f : fiber) : option view :=
  if isShow (hooks f)
  then Some {| v_title := info_title (c_info (hooks f));
               v_description := info_description (c_info (hooks f)) |}
  else None.

(** *** [ModalInfo]: the markup and its click handlers *)

Inductive element : Type :=
| Backdrop          (* div.modal, id "modal" *)
| Container         (* div.modal-container, role "dialog" *)
| Bar               (* div.modal-bar *)
| CloseButton       (* button.modal-close *)
| CloseGlyph        (* the span inside the close button *)
| ContentContainer  (* div.modal-content-container *)
| Header            (* h3.modal-header *)
| Content           (* p.modal-content *)
| OkButton.         (* button.modal-button *)

Definition parent (e : element) : option element :=
  match e with
  | Backdrop => None
  | Container => Some Backdrop
  | Bar => Some Container
  | CloseButton => Some Bar
  | CloseGlyph => Some CloseButton
  | ContentContainer => Some Container
  | Header => Some ContentContainer
  | Content => Some ContentContainer
  | OkButton => Some ContentContainer
  end.

(** [e.target.id]: only the backdrop carries an [id] attribute. *)
Definition id (e : element) : string :=
  match e with
  | Backdrop => "modal"
  | _ => ""
  end.

Inductive handler : Type :=
| handleClickBackdrop
| hide_handler.

Definition onClick (e : element) : option handler :=
  match e with
  | Backdrop => Some handleClickBackdrop
  | CloseButton => Some hide_handler
  | OkButton => Some hide_handler
  | _ => None
  end.

(** The setter calls of a handler for a click whose target is [target]. *)
Definition run_handler (h : handler) (target : element) : list update :=
  match h with
  | handleClickBackdrop =>
      if String.eqb (id target) "modal" then [SetIsShow false] else []
  | hide_handler => [SetIsShow false]
  end.

(** The elements a click bubbles through, the target first. *)
Fixpoint bubble (depth : nat) (e : element) : list element :=
  e :: match depth, parent e with
       | S n, Some p => bubble n p
       | _, _ => []
       end.

Definition tree_depth : nat := 4.

Definition click_updates (target : element) : list update :=
  flat_map (fun e => match onClick e with
                     | Some h => run_handler h target
                     | None => []
                     end)
           (bubble tree_depth target).

(** A click on an element of the modal.  [None] when the modal is not on
    the screen (there is nothing to click) or the passes were not enough. *)
Definition click (target : element) (f : fiber) : option fiber :=
  if isShow (hooks f) then dispatch (click_updates target) f else None.

Definition element_eqb (a b : element) : bool :=
  match a, b with
  | Backdrop, Backdrop | Container, Container | Bar, Bar
  | CloseButton, CloseButton | CloseGlyph, CloseGlyph
  | ContentContainer, ContentContainer | Header, Header
  | Content, Content | OkButton, OkButton => true
  | _, _ => false
  end.

(** Is [e] the element [a] or inside it? *)
Definition inside (a e : element) : bool :=
  existsb (element_eqb a) (bubble tree_depth e).

(** *** States of the controller *)

(** The lookup the first effect performs for a key. *)
Definition content_of (k : jsval) : info_val := spread_arg (matching k).

(** No render is pending: a further render pass changes nothing. *)
Definition settled (f : fiber) : Prop := commit f = f.

Inductive operation : Type :=
| OpSetType (k : jsval)
| OpShow
| OpHide.

Definition run (o : operation) : fiber -> option fiber :=
  match o with
  | OpSetType k => setType k
  | OpShow => show
  | OpHide => hide
  end.

(** The states of a mounted controller driven through its operations. *)
Inductive reachable : fiber -> Prop :=
| reach_mount : forall f, mount = Some f -> reachable f
| reach_run : forall f o f',
    reachable f -> run o f = Some f' -> reachable f'.

(** The dependencies recorded are those of the cells, and the content is
    the lookup of the recorded key. *)
Definition consistent (f : fiber) : Prop :=
  committed f = deps_of (hooks f)
  /\ c_info (hooks f) = content_of (c_type (hooks f)).

(** The keys of the content table, as a proposition on values. *)
Definition valid_key (k : jsval) : Prop :=
  k = JString EMAIL_CONFIRMATION \/ k = JString CONFIRMATION_SUCCESS.

Definition unknown_key (k : jsval) : Prop :=
  k <> JString EMAIL_CONFIRMATION /\ k <> JString CONFIRMATION_SUCCESS.

(** The cells after [setType k] and the renders it causes, in closed form:
    the key is recorded, the content follows the lookup, and visibility is
    switched on when the content changed to an entry with a title. *)
Definition after_setType (k : jsval) (c : cells) : cells :=
  {| c_type := k;
     c_info := content_of k;
     isShow := if object_is k (c_type c) then isShow c
               else if info_is (content_of k) (c_info c) then isShow c
               else if truthy (info_title (content_of k)) then true
               else isShow c |}.

(** The controller after its mount, and showing the first entry. *)
Definition mounted : fiber :=
  {| hooks := {| c_type := JNull; c_info := InfoUndefined; isShow := false |};
     committed := {| d_type := Some JNull; d_info := Some InfoUndefined |} |}.

Definition showing_email : fiber :=
  {| hooks := after_setType (JString EMAIL_CONFIRMATION) (hooks mounted);
     committed :=
       deps_of (after_setType (JString EMAIL_CONFIRMATION) (hooks mounted)) |}.

Definition dismissed_email : fiber :=
  {| hooks := {| c_type := JString EMAIL_CONFIRMATION;
                 c_info := content_of (JString EMAIL_CONFIRMATION);
                 isShow := false |};
     committed := committed showing_email |}.

End Modal.

(** ** The page shell: [layout.js] *)

Module Layout.

Definition QUERIES : list string :=
  [Modal.EMAIL_CONFIRMATION; Modal.CONFIRMATION_SUCCESS].

(** An address of the site: path and query string (with its leading "?"
    when there is one). *)
Record url : Type := Url {
  pathname : string;
  search : string
}.

(** The options of Gatsby's [navigate(to, options)]; a call without
    options pushes a new history entry. *)
Record navigate_options : Type := { replace : bool }.

Definition default_options : navigate_options := {| replace := false |}.

(** What the effect of [Layout] asks for. *)
Inductive request : Type :=
| CallSetType (k : jsval)
| CallNavigate (to : string) (options : navigate_options).

(** The body of the effect with dependencies [[source, setType]]. *)
Definition effect_source (source : jsval) : list request :=
  if existsb (fun query => strict_eq (JString query) source) QUERIES
  then [CallSetType source; CallNavigate "/" default_options]
  else [].

Definition modal_updates (q : list request) : list Modal.update :=
  flat_map (fun r => match r with
                     | CallSetType k => [Modal.SetType k]
                     | CallNavigate _ _ => []
                     end) q.

Definition navigations (q : list request) : list (string * navigate_options) :=
  flat_map (fun r => match r with
                     | CallSetType _ => []
                     | CallNavigate to o => [(to, o)]
                     end) q.

(** The dependency [source] against its value at the previous commit.
    [qs.parse] builds its result anew in every render, so a nested value
    (an array or an object) is never the one of the previous render. *)
Definition source_changed (prev : option jsval) (source : jsval) : bool :=
  match source with
  | JObject _ => true
  | _ => dep_changed object_is prev source
  end.

(** Split a target into path and query string. *)
Definition parsePath (to : string) : url :=
  match index 0 "?" to with
  | Some i => {| pathname := substring 0 i to;
                 search := substring i (String.length to - i) to |}
  | None => {| pathname := to; search := "" |}
  end.

Section Shell.

(** The path prefix of the build and the [source] entry of
    [qs.parse(search, { ignoreQueryPrefix: true })]. *)
Variable PATH_PREFIX : string.
Variable qs_source : string -> jsval.

Definition rootPath : string := PATH_PREFIX ++ "/".

Definition isRootPath (location : url) : bool :=
  String.eqb (pathname location) rootPath.

Definition withPrefix (to : string) : url :=
  {| pathname := PATH_PREFIX ++ pathname (parsePath to);
     search := search (parsePath to) |}.

(** The mounted [Layout]: the cells of [useModal], the dependencies of the
    previous commit, the session history (the entry on display and the
    entries behind it, most recent first), the navigations asked for and
    not yet carried out, and the calls made by the effect so far. *)
Record shell : Type := Shell {
  modal : Modal.cells;
  modal_deps : Modal.deps;
  d_source : option jsval;
  location : url;
  back : list url;
  pending : list (string * navigate_options);
  calls : list request
}.

(** One render of [Layout] whose query parameter reads [source], and its
    commit: the effects of [useModal], then the effect of [Layout]. *)
Definition render (source : jsval) (s : shell) : shell :=
  let q := if source_changed (d_source s) source
           then effect_source source else [] in
  {| modal := Modal.apply_updates (modal s)
                (Modal.effects (modal_deps s) (modal s) ++ modal_updates q);
     modal_deps := Modal.deps_of (modal s);
     d_source := Some source;
     location := location s;
     back := back s;
     pending := pending s ++ navigations q;
     calls := calls s ++ q |}.

Definition commit (s : shell) : shell :=
  render (qs_source (search (location s))) s.

Fixpoint rerender (passes : nat) (s : shell) : option shell :=
  match passes with
  | 0 => None
  | S n =>
      let s' := commit s in
      if Modal.cells_eqb (modal s') (modal s) then Some s' else rerender n s'
  end.

(** Loading the page at [u], with [earlier] behind it in the history. *)
Definition initial (u : url) (earlier : list url) : shell :=
  {| modal := Modal.initial_cells;
     modal_deps := Modal.no_deps;
     d_source := None;
     location := u;
     back := earlier;
     pending := [];
     calls := [] |}.

Definition mount (u : url) (earlier : list url) : option shell :=
  rerender Modal.render_budget (initial u earlier).

(** The router carries out the oldest pending navigation: the history
    entry on display is replaced or a new one is pushed, and the component
    renders with the new location. *)
Definition complete_navigation (s : shell) : option shell :=
  match pending s with
  | [] => Some s
  | (to, options) :: rest =>
      rerender Modal.render_budget
        {| modal := modal s;
           modal_deps := modal_deps s;
           d_source := d_source s;
           location := withPrefix to;
           back := if replace options then back s else location s :: back s;
           pending := rest;
           calls := calls s |}
  end.

(** Reloading the page: a new mount at the entry on display. *)
Definition reload (s : shell) : option shell :=
  mount (location s) (back s).

(** The [useModal] part of the shell. *)
Definition modal_fiber (s : shell) : Modal.fiber :=
  {| Modal.hooks := modal s; Modal.committed := modal_deps s |}.

(** The shell with the [useModal] part [f] and the recorded dependency
    [source]. *)
Definition with_modal (s : shell) (source : jsval) (f : Modal.fiber) : shell :=
  {| modal := Modal.hooks f;
     modal_deps := Modal.committed f;
     d_source := Some source;
     location := location s;
     back := back s;
     pending := pending s;
     calls := calls s |}.

Definition setType_calls (s : shell) : list jsval :=
  flat_map (fun r => match r with
                     | CallSetType k => [k]
                     | CallNavigate _ _ => []
                     end) (calls s).

Definition navigate_calls (s : shell) : list string :=
  flat_map (fun r => match r with
                     | CallSetType _ => []
                     | CallNavigate to _ => [to]
                     end) (calls s).

End Shell.

(** The render loop for a location whose query parameter reads [source]
    throughout. *)
Fixpoint rerender_at (source : jsval) (passes : nat) (s : shell)
  : option shell :=
  match passes with
  | 0 => None
  | S n =>
      let s' := render source s in
      if Modal.cells_eqb (modal s') (modal s) then Some s'
      else rerender_at source n s'
  end.

(** A reading of the query strings of the examples below, which carry at
    most the one parameter: ["?source=v"] gives the string [v], anything
    else gives [undefined]. *)
Definition single_source (search : string) : jsval :=
  if prefix "?source=" search
  then JString (substring 8 (String.length search - 8) search)
  else JUndefined.

(** The address the form service sends the reader back to after a
    subscription, on a site without path prefix. *)
Definition email_link : url :=
  {| pathname := "/"; search := "?source=email-confirmation" |}.

Definition home : url := {| pathname := "/"; search := "" |}.

End Layout.


(** * Properties *)

(** ** Equality tests *)

Lemma strict_eq_spec (a b : jsval) : reflect (a = b) (strict_eq a b).
Proof.
  destruct a as [| |s|r], b as [| |t|q]; simpl;
    try (constructor; congruence).
  - destruct (String.eqb_spec s t); constructor; congruence.
  - destruct (Nat.eqb_spec r q); constructor; congruence.
Qed.

Lemma strict_eq_refl (a : jsval) : strict_eq a a = true.
Proof. destruct (strict_eq_spec a a); congruence. Qed.

Lemma strict_eq_sym (a b : jsval) : strict_eq a b = strict_eq b a.
Proof.
  destruct (strict_eq_spec a b), (strict_eq_spec b a); congruence.
Qed.

Module ModalFacts.
Import Modal.

Lemma entry_eqb_spec (a b : entry) : reflect (a = b) (entry_eqb a b).
Proof.
  destruct a as [t1 h1 d1], b as [t2 h2 d2]; unfold entry_eqb; simpl.
  destruct (String.eqb_spec t1 t2), (String.eqb_spec h1 h2),
    (String.eqb_spec d1 d2); simpl; constructor; congruence.
Qed.

Lemma info_is_spec (a b : info_val) : reflect (a = b) (info_is a b).
Proof.
  destruct a as [| |e], b as [| |e']; simpl; try (constructor; congruence).
  destruct (entry_eqb_spec e e'); constructor; congruence.
Qed.

Lemma info_is_refl (a : info_val) : info_is a a = true.
Proof. destruct (info_is_spec a a); congruence. Qed.

Lemma cells_eqb_spec (a b : cells) : reflect (a = b) (cells_eqb a b).
Proof.
  destruct a as [t1 i1 b1], b as [t2 i2 b2]; unfold cells_eqb, object_is; simpl.
  destruct (strict_eq_spec t1 t2), (info_is_spec i1 i2),
    (Bool.eqb_spec b1 b2); simpl; constructor; congruence.
Qed.

Lemma cells_eqb_refl (c : cells) : cells_eqb c c = true.
Proof. destruct (cells_eqb_spec c c); congruence. Qed.

(** ** The lookup *)

Lemma content_of_email :
  content_of (JString EMAIL_CONFIRMATION)
  = InfoEntry {| type := EMAIL_CONFIRMATION; title := "Success!";
                 description :=
                   "Now check your email to confirm your subscription" |}.
Proof. reflexivity. Qed.

Lemma content_of_success :
  content_of (JString CONFIRMATION_SUCCESS)
  = InfoEntry {| type := CONFIRMATION_SUCCESS; title := "Done!";
                 description := "Thanks for subscribing!" |}.
Proof. reflexivity. Qed.

Lemma matching_unknown (k : jsval) : unknown_key k -> matching k = [].
Proof.
  intros [H1 H2]. unfold matching, MODAL_DATA. cbn [filter type].
  destruct (strict_eq_spec (JString EMAIL_CONFIRMATION) k); [congruence|].
  destruct (strict_eq_spec (JString CONFIRMATION_SUCCESS) k); [congruence|].
  reflexivity.
Qed.

Lemma content_of_unknown (k : jsval) :
  unknown_key k -> content_of k = InfoUndefined.
Proof. intros H. unfold content_of. now rewrite matching_unknown. Qed.

Lemma content_of_entry (k : jsval) (e : entry) :
  In e MODAL_DATA -> k = JString (type e) -> content_of k = InfoEntry e.
Proof.
  intros [<-|[<-|[]]] ->; reflexivity.
Qed.

Lemma content_of_cases (k : jsval) :
  {valid_key k /\ exists e, In e MODAL_DATA /\ k = JString (type e)
                             /\ content_of k = InfoEntry e
                             /\ truthy (info_title (content_of k)) = true}
  + {unknown_key k /\ content_of k = InfoUndefined}.
Proof.
  destruct (strict_eq_spec (JString EMAIL_CONFIRMATION) k) as [E|E].
  - left. subst k. split; [now left|]. eexists; repeat split;
      [left; reflexivity|reflexivity..].
  - destruct (strict_eq_spec (JString CONFIRMATION_SUCCESS) k) as [E'|E'].
    + left. subst k. split; [now right|]. eexists; repeat split;
        [right; left; reflexivity|reflexivity..].
    + right. assert (unknown_key k) by (split; congruence).
      split; [assumption|now apply content_of_unknown].
Qed.

(** ** Render passes *)

Lemma rerender_S (n : nat) (f : fiber) :
  rerender (S n) f
  = if cells_eqb (hooks (commit f)) (hooks f) then Some (commit f)
    else rerender n (commit f).
Proof. reflexivity. Qed.

Lemma commit_quiet (c : cells) :
  commit {| hooks := c; committed := deps_of c |}
  = {| hooks := c; committed := deps_of c |}.
Proof.
  destruct c as [t i b]. unfold commit, effects, deps_of, dep_changed; simpl.
  unfold object_is. now rewrite strict_eq_refl, info_is_refl.
Qed.

Lemma commit_new_type (k t : jsval) (i : info_val) (b : bool) :
  k <> t ->
  commit {| hooks := {| c_type := k; c_info := i; isShow := b |};
            committed := {| d_type := Some t; d_info := Some i |} |}
  = {| hooks := {| c_type := k; c_info := content_of k; isShow := b |};
       committed := {| d_type := Some k; d_info := Some i |} |}.
Proof.
  intros N. unfold commit, effects, deps_of, dep_changed, object_is.
  cbn [hooks committed d_type d_info c_type c_info].
  destruct (strict_eq_spec t k); [congruence|].
  rewrite info_is_refl. reflexivity.
Qed.

Lemma commit_new_info (k : jsval) (i i' : info_val) (b : bool) :
  i' <> i ->
  commit {| hooks := {| c_type := k; c_info := i'; isShow := b |};
            committed := {| d_type := Some k; d_info := Some i |} |}
  = {| hooks := {| c_type := k; c_info := i';
                   isShow := if truthy (info_title i') then true else b |};
       committed := {| d_type := Some k; d_info := Some i' |} |}.
Proof.
  intros N. unfold commit, effects, deps_of, dep_changed, object_is.
  cbn [hooks committed d_type d_info c_type c_info].
  rewrite strict_eq_refl.
  destruct (info_is_spec i i'); [congruence|].
  unfold effect_info. cbn [c_info negb app].
  destruct (truthy (info_title i')); reflexivity.
Qed.

(** Allowing more passes does not change the outcome of a render loop
    that comes to rest. *)
Lemma rerender_more_passes (n m : nat) (f f' : fiber) :
  rerender n f = Some f' -> n <= m -> rerender m f = Some f'.
Proof.
  revert m f. induction n as [|n IH]; intros m f H L; [discriminate H|].
  destruct m as [|m]; [lia|].
  rewrite rerender_S in *.
  destruct (cells_eqb (hooks (commit f)) (hooks f)); [exact H|].
  apply IH; [exact H|lia].
Qed.

(** A fiber whose recorded dependencies are its cells is at rest, whatever
    the number of passes allowed. *)
Lemma rerender_quiet (n : nat) (c : cells) :
  rerender (S n) {| hooks := c; committed := deps_of c |}
  = Some {| hooks := c; committed := deps_of c |}.
Proof. now rewrite rerender_S, commit_quiet, cells_eqb_refl. Qed.

(** The renders that follow a change of the content cell. *)
Lemma rerender_new_info (n : nat) (k : jsval) (i i' : info_val) (b : bool) :
  i' <> i ->
  rerender (S (S n))
    {| hooks := {| c_type := k; c_info := i'; isShow := b |};
       committed := {| d_type := Some k; d_info := Some i |} |}
  = Some {| hooks := {| c_type := k; c_info := i';
                        isShow := if truthy (info_title i') then true
                                  else b |};
            committed := {| d_type := Some k; d_info := Some i' |} |}.
Proof.
  intros N. rewrite rerender_S, (commit_new_info _ _ _ _ N).
  cbn [hooks].
  destruct (cells_eqb_spec
              {| c_type := k; c_info := i';
                 isShow := if truthy (info_title i') then true else b |}
              {| c_type := k; c_info := i'; isShow := b |}) as [E|E].
  - reflexivity.
  - apply (rerender_quiet n
             {| c_type := k; c_info := i';
                isShow := if truthy (info_title i') then true else b |}).
Qed.

(** The renders that follow a change of the key cell. *)
Lemma rerender_new_type (n : nat) (k t : jsval) (i : info_val) (b : bool) :
  k <> t ->
  rerender (S (S (S n)))
    {| hooks := {| c_type := k; c_info := i; isShow := b |};
       committed := {| d_type := Some t; d_info := Some i |} |}
  = Some {| hooks := {| c_type := k; c_info := content_of k;
                        isShow := if info_is (content_of k) i then b
                                  else if truthy (info_title (content_of k))
                                       then true else b |};
            committed := {| d_type := Some k;
                            d_info := Some (content_of k) |} |}.
Proof.
  intros N. rewrite rerender_S, (commit_new_type _ _ _ _ N). cbn [hooks].
  destruct (info_is_spec (content_of k) i) as [E|E].
  - rewrite E, cells_eqb_refl. reflexivity.
  - destruct (cells_eqb_spec
                {| c_type := k; c_info := content_of k; isShow := b |}
                {| c_type := k; c_info := i; isShow := b |}) as [E'|E'];
      [congruence|].
    now rewrite rerender_new_info.
Qed.

(** ** The operations on a consistent fiber *)

Lemma setType_consistent (k : jsval) (f : fiber) :
  consistent f ->
  setType k f = Some {| hooks := after_setType k (hooks f);
                        committed := deps_of (after_setType k (hooks f)) |}.
Proof.
  destruct f as [[t i b] d]. intros [Hd Hi]. cbn in Hd, Hi. subst d.
  unfold setType, dispatch, after_setType, apply_updates, object_is.
  cbn [fold_left apply_update hooks committed c_type c_info isShow].
  destruct (cells_eqb_spec {| c_type := k; c_info := i; isShow := b |}
              {| c_type := t; c_info := i; isShow := b |}) as [E|E].
  - injection E as ->. rewrite strict_eq_refl, <- Hi. reflexivity.
  - assert (N : k <> t) by congruence.
    destruct (strict_eq_spec k t); [congruence|].
    unfold render_budget, deps_of. cbn [c_type c_info].
    now rewrite (rerender_new_type _ _ _ _ _ N).
Qed.

Lemma set_isShow_consistent (v : bool) (f : fiber) :
  consistent f ->
  dispatch [SetIsShow v] f
  = Some {| hooks := {| c_type := c_type (hooks f);
                        c_info := c_info (hooks f); isShow := v |};
            committed := committed f |}.
Proof.
  destruct f as [[t i b] d]. intros [Hd Hi]. cbn in Hd, Hi. subst d.
  unfold dispatch, apply_updates.
  cbn [fold_left apply_update hooks committed c_type c_info isShow].
  destruct (cells_eqb_spec {| c_type := t; c_info := i; isShow := v |}
              {| c_type := t; c_info := i; isShow := b |}) as [E|E].
  - now rewrite E.
  - apply (rerender_quiet _ {| c_type := t; c_info := i; isShow := v |}).
Qed.

Lemma mount_eq : mount = Some mounted.
Proof. reflexivity. Qed.

Lemma after_setType_consistent (k : jsval) (c : cells) :
  consistent {| hooks := after_setType k c;
                committed := deps_of (after_setType k c) |}.
Proof. split; reflexivity. Qed.

Lemma reachable_consistent (f : fiber) : reachable f -> consistent f.
Proof.
  induction 1 as [f H|f o f' _ IH H].
  - rewrite mount_eq in H. injection H as <-. split; reflexivity.
  - destruct o as [k| |]; cbn [run] in H.
    + rewrite (setType_consistent k f IH) in H. injection H as <-.
      apply after_setType_consistent.
    + unfold show in H. rewrite (set_isShow_consistent true f IH) in H.
      injection H as <-. exact IH.
    + unfold hide in H. rewrite (set_isShow_consistent false f IH) in H.
      injection H as <-. exact IH.
Qed.

Lemma consistent_settled (f : fiber) : consistent f -> settled f.
Proof.
  destruct f as [c d]. intros [Hd _]. cbn in Hd. subst d.
  apply commit_quiet.
Qed.

Lemma reachable_mounted : reachable mounted.
Proof. apply reach_mount, mount_eq. Qed.

Lemma reachable_showing_email : reachable showing_email.
Proof.
  apply (reach_run mounted (OpSetType (JString EMAIL_CONFIRMATION))).
  - exact reachable_mounted.
  - reflexivity.
Qed.

Lemma setType_reachable (k : jsval) (f : fiber) :
  reachable f ->
  setType k f = Some {| hooks := after_setType k (hooks f);
                        committed := deps_of (after_setType k (hooks f)) |}.
Proof. intros R. now apply setType_consistent, reachable_consistent. Qed.

Lemma hide_reachable (f : fiber) :
  reachable f ->
  hide f = Some {| hooks := {| c_type := c_type (hooks f);
                               c_info := c_info (hooks f); isShow := false |};
                   committed := committed f |}.
Proof. intros R. now apply set_isShow_consistent, reachable_consistent. Qed.

(** ** The controller and its content *)

(** C1, as the code has it.  Calling [setType] with one of the two keys
    of the table, on a controller that does not already record that key,
    leaves the modal on
    the screen with the text of that entry: "Success!" and "Now check your
    email to confirm your subscription" for [EMAIL_CONFIRMATION], "Done!"
    and "Thanks for subscribing!" for [CONFIRMATION_SUCCESS]. *)
Theorem setType_valid_key_shows_entry (f : fiber) :
  reachable f ->
  (c_type (hooks f) <> JString EMAIL_CONFIRMATION ->
   exists f',
     setType (JString EMAIL_CONFIRMATION) f = Some f'
     /\ isShow (hooks f') = true
     /\ Modal f' = Some {| v_title := Some "Success!";
                           v_description :=
                             Some "Now check your email to confirm your subscription" |})
  /\ (c_type (hooks f) <> JString CONFIRMATION_SUCCESS ->
      exists f',
        setType (JString CONFIRMATION_SUCCESS) f = Some f'
        /\ isShow (hooks f') = true
        /\ Modal f' = Some {| v_title := Some "Done!";
                              v_description := Some "Thanks for subscribing!" |}).
Proof.
  intros R. pose proof (reachable_consistent f R) as [_ Hi].
  split; intros N; eexists; (split; [now apply setType_reachable|]).
  - assert (V : isShow (after_setType (JString EMAIL_CONFIRMATION) (hooks f))
                = true).
    { unfold after_setType, object_is.
      destruct (strict_eq_spec (JString EMAIL_CONFIRMATION) (c_type (hooks f)));
        [congruence|].
      rewrite content_of_email.
      destruct (info_is_spec
                  (InfoEntry {| type := EMAIL_CONFIRMATION; title := "Success!";
                                description :=
                                  "Now check your email to confirm your subscription" |})
                  (c_info (hooks f))) as [E|E]; [|reflexivity].
      exfalso. rewrite Hi in E.
      destruct (content_of_cases (c_type (hooks f)))
        as [[[K|K] _]|[_ K]]; rewrite K in E; try discriminate E.
      congruence. }
    split; [exact V|]. unfold Modal. cbn [hooks]. now rewrite V.
  - assert (V : isShow (after_setType (JString CONFIRMATION_SUCCESS) (hooks f))
                = true).
    { unfold after_setType, object_is.
      destruct (strict_eq_spec (JString CONFIRMATION_SUCCESS) (c_type (hooks f)));
        [congruence|].
      rewrite content_of_success.
      destruct (info_is_spec
                  (InfoEntry {| type := CONFIRMATION_SUCCESS; title := "Done!";
                                description := "Thanks for subscribing!" |})
                  (c_info (hooks f))) as [E|E]; [|reflexivity].
      exfalso. rewrite Hi in E.
      destruct (content_of_cases (c_type (hooks f)))
        as [[[K|K] _]|[_ K]]; rewrite K in E; try discriminate E.
      congruence. }
    split; [exact V|]. unfold Modal. cbn [hooks]. now rewrite V.
Qed.

Lemma setType_valid_key_shows_entry_witness :
  (exists f',
     setType (JString EMAIL_CONFIRMATION) mounted = Some f'
     /\ isShow (hooks f') = true
     /\ Modal f' = Some {| v_title := Some "Success!";
                           v_description :=
                             Some "Now check your email to confirm your subscription" |})
  /\ (exists f',
        setType (JString CONFIRMATION_SUCCESS) mounted = Some f'
        /\ isShow (hooks f') = true
        /\ Modal f' = Some {| v_title := Some "Done!";
                              v_description := Some "Thanks for subscribing!" |}).
Proof.
  destruct (setType_valid_key_shows_entry mounted reachable_mounted)
    as [H1 H2].
  split; [apply H1|apply H2]; discriminate.
Defined.

(** C1 without the condition on the recorded key fails: on the controller
    that has shown the first entry and was dismissed, [setType] with the
    key of that entry is dropped, and the modal stays hidden. *)
Lemma setType_recorded_key_stays_hidden :
  reachable dismissed_email
  /\ setType (JString EMAIL_CONFIRMATION) dismissed_email
     = Some dismissed_email
  /\ isShow (hooks dismissed_email) = false
  /\ Modal dismissed_email = None.
Proof.
  split.
  - apply (reach_run showing_email OpHide);
      [exact reachable_showing_email|reflexivity].
  - repeat split.
Qed.

Lemma unknown_key_no_entry (k : jsval) :
  unknown_key k <-> forall e, In e MODAL_DATA -> k <> JString (type e).
Proof.
  split.
  - intros [H1 H2] e [<-|[<-|[]]]; assumption.
  - intros H. split; [apply (H (nth 0 MODAL_DATA (Entry "" "" "")))
                     |apply (H (nth 1 MODAL_DATA (Entry "" "" "")))];
      cbn; auto.
Qed.

Lemma isShow_after_unknown (k : jsval) (c : cells) :
  unknown_key k -> isShow (after_setType k c) = isShow c.
Proof.
  intros U. unfold after_setType. cbn [isShow].
  rewrite (content_of_unknown k U). cbn [info_title truthy].
  now destruct (object_is k (c_type c)), (info_is InfoUndefined (c_info c)).
Qed.

Lemma setType_unknown_when_hidden (f : fiber) (k : jsval) :
  reachable f -> isShow (hooks f) = false -> unknown_key k ->
  exists f',
    setType k f = Some f'
    /\ isShow (hooks f') = false
    /\ c_info (hooks f') = InfoUndefined
    /\ Modal f' = None.
Proof.
  intros R H U. eexists. split; [now apply setType_reachable|].
  assert (V : isShow (after_setType k (hooks f)) = false)
    by now rewrite isShow_after_unknown.
  repeat split.
  - exact V.
  - cbn. now apply content_of_unknown.
  - unfold Modal. cbn [hooks]. now rewrite V.
Qed.

(** C2.  On a hidden controller, [setType] with a key that is neither
    [EMAIL_CONFIRMATION] nor [CONFIRMATION_SUCCESS] returns normally, the
    modal stays hidden and the content is unset. *)
Theorem setType_unknown_key_stays_hidden (f : fiber) (k : jsval) :
  reachable f -> isShow (hooks f) = false -> unknown_key k ->
  exists f',
    setType k f = Some f'
    /\ isShow (hooks f') = false
    /\ c_info (hooks f') = InfoUndefined
    /\ Modal f' = None.
Proof. exact (setType_unknown_when_hidden f k). Qed.

Lemma setType_unknown_key_stays_hidden_witness :
  exists f',
    setType (JString "newsletter") mounted = Some f'
    /\ isShow (hooks f') = false
    /\ c_info (hooks f') = InfoUndefined
    /\ Modal f' = None.
Proof.
  apply (setType_unknown_key_stays_hidden mounted (JString "newsletter")).
  - exact reachable_mounted.
  - reflexivity.
  - split; discriminate.
Defined.

(** C5.  In every state reached from the mount through [setType], [show]
    and [hide], no render is pending and the content follows the recorded
    key: when the key is that of an entry of the table, the content is that
    entry, the only one with that key; when no entry has the key, the
    content is [undefined], and [setType] with such a key does not take a
    hidden controller to visible. *)
Theorem content_follows_key (f : fiber) :
  reachable f ->
  settled f
  /\ (forall e, In e MODAL_DATA -> c_type (hooks f) = JString (type e) ->
      c_info (hooks f) = InfoEntry e
      /\ forall e', In e' MODAL_DATA -> type e' = type e -> e' = e)
  /\ ((forall e, In e MODAL_DATA -> c_type (hooks f) <> JString (type e)) ->
      c_info (hooks f) = InfoUndefined)
  /\ (forall k, (forall e, In e MODAL_DATA -> k <> JString (type e)) ->
      isShow (hooks f) = false ->
      exists f',
        setType k f = Some f'
        /\ c_info (hooks f') = InfoUndefined
        /\ isShow (hooks f') = false).
Proof.
  intros R. pose proof (reachable_consistent f R) as C.
  split; [now apply consistent_settled|]. destruct C as [_ Hi].
  split; [|split].
  - intros e I E. split.
    + rewrite Hi. now apply content_of_entry.
    + intros e' I'. destruct I as [<-|[<-|[]]], I' as [<-|[<-|[]]];
        cbn [type]; unfold EMAIL_CONFIRMATION, CONFIRMATION_SUCCESS;
        intros T; first [reflexivity | discriminate T].
  - intros N. rewrite Hi. now apply content_of_unknown, unknown_key_no_entry.
  - intros k N H. apply unknown_key_no_entry in N.
    destruct (setType_unknown_when_hidden f k R H N)
      as (f' & E & V & I & _).
    now exists f'.
Qed.

Lemma content_follows_key_witness :
  settled showing_email
  /\ c_info (hooks showing_email)
     = InfoEntry {| type := EMAIL_CONFIRMATION; title := "Success!";
                    description :=
                      "Now check your email to confirm your subscription" |}.
Proof.
  destruct (content_follows_key showing_email reachable_showing_email)
    as (S & E & _).
  split; [exact S|].
  apply (E {| type := EMAIL_CONFIRMATION; title := "Success!";
              description :=
                "Now check your email to confirm your subscription" |}).
  - left; reflexivity.
  - reflexivity.
Defined.

(** C9.  Once [setType k], with [k] a key of the table, has put the modal
    on the screen and [hide] has dismissed it, [setType k] with the same
    key changes nothing: the modal stays hidden.  The second effect only
    runs when the content changes, and the content only changes with the
    recorded key. *)
Theorem setType_same_key_after_hide (f f1 f2 : fiber) (k : jsval) :
  reachable f -> valid_key k ->
  setType k f = Some f1 -> isShow (hooks f1) = true ->
  hide f1 = Some f2 ->
  isShow (hooks f2) = false /\ setType k f2 = Some f2.
Proof.
  intros R V H1 S1 H2.
  assert (R1 : reachable f1) by exact (reach_run f (OpSetType k) f1 R H1).
  assert (R2 : reachable f2) by exact (reach_run f1 OpHide f2 R1 H2).
  rewrite (setType_reachable k f R) in H1. injection H1 as <-.
  rewrite (hide_reachable _ R1) in H2. injection H2 as <-.
  split; [reflexivity|].
  rewrite (setType_reachable k _ R2).
  unfold after_setType, deps_of, object_is.
  cbn [hooks committed c_type c_info isShow].
  now rewrite strict_eq_refl.
Qed.

Lemma setType_same_key_after_hide_witness :
  isShow (hooks dismissed_email) = false
  /\ setType (JString EMAIL_CONFIRMATION) dismissed_email
     = Some dismissed_email.
Proof.
  apply (setType_same_key_after_hide mounted showing_email dismissed_email
           (JString EMAIL_CONFIRMATION)).
  - exact reachable_mounted.
  - left; reflexivity.
  - reflexivity.
  - reflexivity.
  - reflexivity.
Defined.

(** C10.  When the modal is on the screen with an entry of the table and
    [setType] is called with a key that no entry has, the modal stays on
    the screen and its title and description are both [undefined]. *)
Theorem setType_unknown_key_while_visible
        (f : fiber) (e : entry) (k : jsval) :
  reachable f -> isShow (hooks f) = true ->
  In e MODAL_DATA -> c_info (hooks f) = InfoEntry e ->
  unknown_key k ->
  Modal f = Some {| v_title := Some (title e);
                    v_description := Some (description e) |}
  /\ exists f',
      setType k f = Some f'
      /\ isShow (hooks f') = true
      /\ Modal f' = Some {| v_title := None; v_description := None |}.
Proof.
  intros R S _ I U. split.
  - unfold Modal. now rewrite S, I.
  - eexists. split; [now apply setType_reachable|].
    assert (V : isShow (after_setType k (hooks f)) = true)
      by now rewrite isShow_after_unknown.
    split; [exact V|].
    unfold Modal. cbn [hooks]. rewrite V.
    cbn [after_setType c_info]. now rewrite (content_of_unknown k U).
Qed.

Lemma setType_unknown_key_while_visible_witness :
  exists f',
    setType JUndefined showing_email = Some f'
    /\ isShow (hooks f') = true
    /\ Modal f' = Some {| v_title := None; v_description := None |}.
Proof.
  apply (setType_unknown_key_while_visible showing_email
           {| type := EMAIL_CONFIRMATION; title := "Success!";
              description :=
                "Now check your email to confirm your subscription" |}
           JUndefined).
  - exact reachable_showing_email.
  - reflexivity.
  - left; reflexivity.
  - reflexivity.
  - split; discriminate.
Defined.

(** ** Clicks on the modal *)

Lemma dispatch_nothing (f : fiber) : dispatch [] f = Some f.
Proof.
  unfold dispatch, apply_updates. cbn [fold_left].
  now rewrite cells_eqb_refl.
Qed.

Lemma click_hiding (target : element) (f : fiber) :
  reachable f -> isShow (hooks f) = true ->
  click_updates target = [SetIsShow false] ->
  exists f', click target f = Some f' /\ isShow (hooks f') = false.
Proof.
  intros R S U. unfold click. rewrite S, U.
  fold (hide f). rewrite (hide_reachable f R).
  eexists. split; reflexivity.
Qed.

(** C6, as the code has it.  While the modal is on the screen, a click
    whose target is the backdrop itself hides it; a click whose target is
    the dialog container, or an element inside it that is neither in the
    close button nor in the OK button, changes nothing. *)
Theorem click_backdrop_hides_container_keeps (f : fiber) :
  reachable f -> isShow (hooks f) = true ->
  (exists f', click Backdrop f = Some f' /\ isShow (hooks f') = false)
  /\ (forall target,
        inside Container target = true ->
        inside CloseButton target = false ->
        inside OkButton target = false ->
        click target f = Some f).
Proof.
  intros R S. split.
  - now apply click_hiding.
  - intros target IC NC NO. unfold click. rewrite S.
    destruct target; try discriminate; apply dispatch_nothing.
Qed.

Lemma click_backdrop_hides_container_keeps_witness :
  (exists f', click Backdrop showing_email = Some f'
              /\ isShow (hooks f') = false)
  /\ click Container showing_email = Some showing_email
  /\ click Header showing_email = Some showing_email.
Proof.
  destruct (click_backdrop_hides_container_keeps showing_email
              reachable_showing_email eq_refl) as [B K].
  split; [exact B|].
  split; apply K; reflexivity.
Defined.

(** C6, as stated, fails: the OK button is inside the dialog container,
    and a click on it hides the modal. *)
Lemma click_inside_container_can_hide :
  reachable showing_email
  /\ isShow (hooks showing_email) = true
  /\ inside Container OkButton = true
  /\ click OkButton showing_email = Some dismissed_email
  /\ isShow (hooks dismissed_email) = false.
Proof.
  split; [exact reachable_showing_email|].
  repeat split.
Qed.

(** C7.  While the modal is on the screen, a click on the close button (or
    on the glyph it contains) and a click on the OK button hide it. *)
Theorem click_close_or_ok_hides (f : fiber) :
  reachable f -> isShow (hooks f) = true ->
  (exists f', click CloseButton f = Some f' /\ isShow (hooks f') = false)
  /\ (exists f', click CloseGlyph f = Some f' /\ isShow (hooks f') = false)
  /\ (exists f', click OkButton f = Some f' /\ isShow (hooks f') = false).
Proof.
  intros R S. repeat split; now apply click_hiding.
Qed.

Lemma click_close_or_ok_hides_witness :
  (exists f', click CloseButton showing_email = Some f'
              /\ isShow (hooks f') = false)
  /\ (exists f', click CloseGlyph showing_email = Some f'
                 /\ isShow (hooks f') = false)
  /\ (exists f', click OkButton showing_email = Some f'
                 /\ isShow (hooks f') = false).
Proof.
  apply (click_close_or_ok_hides showing_email reachable_showing_email).
  reflexivity.
Defined.

End ModalFacts.

Module LayoutFacts.
Import Layout.

(** Run the render loop of the goal, once the source it reads is known. *)
Ltac evaluate_renders :=
  match goal with
  | |- context [rerender_at ?a ?n ?s] =>
      let v := eval vm_compute in (rerender_at a n s) in
      change (rerender_at a n s) with v
  end.

(** Once a source has been recorded, a render that reads it again asks
    for nothing. *)
Lemma no_request_for_recorded_source (source : jsval) :
  (if source_changed (Some source) source then effect_source source else [])
  = [].
Proof.
  destruct source as [| |m|r]; cbn [source_changed dep_changed];
    unfold object_is; rewrite ?strict_eq_refl; reflexivity.
Qed.

Lemma render_recorded (source : jsval) (s : shell) :
  d_source s = Some source ->
  render source s = with_modal s source (Modal.commit (modal_fiber s)).
Proof.
  intros D. unfold render. rewrite D, no_request_for_recorded_source.
  unfold with_modal, Modal.commit, modal_fiber.
  cbn [modal_updates navigations flat_map Modal.hooks Modal.committed].
  now rewrite !app_nil_r.
Qed.

Lemma rerender_at_recorded (source : jsval) (n : nat) (s : shell) :
  d_source s = Some source ->
  rerender_at source n s
  = option_map (with_modal s source) (Modal.rerender n (modal_fiber s)).
Proof.
  revert s. induction n as [|n IH]; intros s D; [reflexivity|].
  cbn [rerender_at Modal.rerender]. rewrite (render_recorded source s D).
  cbn [with_modal modal modal_fiber Modal.hooks].
  destruct (Modal.cells_eqb (Modal.hooks (Modal.commit (modal_fiber s)))
              (modal s)); [reflexivity|].
  now rewrite IH.
Qed.

Lemma rerender_at_S (source : jsval) (n : nat) (s : shell) :
  rerender_at source (S n) s
  = if Modal.cells_eqb (modal (render source s)) (modal s)
    then Some (render source s)
    else rerender_at source n (render source s).
Proof. reflexivity. Qed.

Section ShellFacts.

Variable PATH_PREFIX : string.
Variable qs_source : string -> jsval.

Lemma rerender_source (source : jsval) (n : nat) (s : shell) :
  qs_source (search (location s)) = source ->
  rerender qs_source n s = rerender_at source n s.
Proof.
  revert s. induction n as [|n IH]; intros s H; [reflexivity|].
  cbn [rerender rerender_at]. unfold commit. rewrite H.
  destruct (Modal.cells_eqb (modal (render source s)) (modal s));
    [reflexivity|].
  now apply IH.
Qed.

Lemma shell_rerender_more_passes (n m : nat) (s s' : shell) :
  rerender qs_source n s = Some s' -> n <= m ->
  rerender qs_source m s = Some s'.
Proof.
  revert m s. induction n as [|n IH]; intros m s H L; [discriminate H|].
  destruct m as [|m]; [lia|].
  cbn [rerender] in *.
  destruct (Modal.cells_eqb (modal (commit qs_source s)) (modal s));
    [exact H|].
  apply IH; [exact H|lia].
Qed.

Lemma iter_fixed (s : shell) (n : nat) :
  commit qs_source s = s -> Nat.iter n (commit qs_source) s = s.
Proof.
  intros H. induction n as [|n IH]; [reflexivity|].
  rewrite Nat.iter_succ. now rewrite IH.
Qed.

Lemma effect_source_unrecognised (source : jsval) :
  (forall query, In query QUERIES -> source <> JString query) ->
  effect_source source = [].
Proof.
  intros H. unfold effect_source, QUERIES. cbn [existsb].
  destruct (strict_eq_spec (JString Modal.EMAIL_CONFIRMATION) source) as [E|E].
  - exfalso. apply (H Modal.EMAIL_CONFIRMATION); [now left|congruence].
  - destruct (strict_eq_spec (JString Modal.CONFIRMATION_SUCCESS) source)
      as [E'|E']; [|reflexivity].
    exfalso. apply (H Modal.CONFIRMATION_SUCCESS); [right; now left|congruence].
Qed.

(** Without a recognised marker a render of the shell is a render of the
    controller. *)
Lemma render_quiet (source : jsval) (s : shell) :
  effect_source source = [] ->
  render source s = with_modal s source (Modal.commit (modal_fiber s)).
Proof.
  intros H. unfold render, with_modal, Modal.commit, modal_fiber. rewrite H.
  destruct (source_changed (d_source s) source);
    cbn [modal_updates navigations flat_map Modal.hooks Modal.committed];
    now rewrite !app_nil_r.
Qed.

Lemma rerender_at_quiet (source : jsval) (n : nat) (s : shell) :
  effect_source source = [] ->
  rerender_at source n s
  = option_map (with_modal s source) (Modal.rerender n (modal_fiber s)).
Proof.
  intros H. revert s. induction n as [|n IH]; intros s; [reflexivity|].
  cbn [rerender_at Modal.rerender]. rewrite (render_quiet source s H).
  cbn [with_modal modal modal_fiber Modal.hooks].
  destruct (Modal.cells_eqb (Modal.hooks (Modal.commit (modal_fiber s)))
              (modal s)); [reflexivity|].
  now rewrite IH.
Qed.

Lemma mount_source (source : jsval) (u : url) (earlier : list url) :
  qs_source (search u) = source ->
  mount qs_source u earlier
  = rerender_at source Modal.render_budget (initial u earlier).
Proof. intros H. unfold mount. now apply rerender_source. Qed.

Lemma mount_unrecognised (u : url) (earlier : list url) :
  effect_source (qs_source (search u)) = [] ->
  mount qs_source u earlier
  = Some (with_modal (initial u earlier) (qs_source (search u))
            Modal.mounted).
Proof.
  intros H. rewrite (mount_source _ u earlier eq_refl).
  now rewrite (rerender_at_quiet _ _ _ H).
Qed.

Lemma commit_unrecognised_at_rest
      (s : shell) (source : jsval) (f : Modal.fiber) :
  effect_source source = [] ->
  qs_source (search (location s)) = source ->
  Modal.commit f = f ->
  commit qs_source (with_modal s source f) = with_modal s source f.
Proof.
  intros H E C. unfold commit. cbn [with_modal location]. rewrite E.
  rewrite (render_quiet _ _ H).
  unfold with_modal, modal_fiber.
  cbn [modal modal_deps location back pending calls].
  destruct f as [c d]. cbn [Modal.hooks Modal.committed]. now rewrite C.
Qed.

(** ** The reaction to the query string *)

(** C8.  When the query parameter of the location is absent or is not one
    of the recognised markers, the shell does nothing: its effect calls
    neither [setType] nor [navigate], the controller is as it is after a
    mount of its own, the location and the history are the ones the page
    was loaded with, and further renders change nothing. *)
Theorem unrecognised_source_no_action (u : url) (earlier : list url) :
  (forall query, In query QUERIES -> qs_source (search u) <> JString query) ->
  exists s,
    mount qs_source u earlier = Some s
    /\ setType_calls s = [] /\ navigate_calls s = []
    /\ pending s = []
    /\ modal_fiber s = Modal.mounted
    /\ location s = u /\ back s = earlier
    /\ complete_navigation PATH_PREFIX qs_source s = Some s
    /\ (forall n, Nat.iter n (commit qs_source) s = s).
Proof.
  intros H. apply effect_source_unrecognised in H.
  eexists. split; [now apply mount_unrecognised|].
  repeat split.
  intros n. apply iter_fixed.
  apply (commit_unrecognised_at_rest (initial u earlier)); auto.
Qed.

(** C4.  Loading the page at a location whose query parameter is a
    recognised marker ("email-confirmation" in particular) makes the
    effect call [setType] with the marker exactly once, and [navigate]
    once, over all the renders of the mount; as long as the location is
    the same, that is until the navigation is carried out, further renders
    change nothing at all.  The effect is gated on the value read: in any
    state of the shell, a render loop that reads the marker recorded at
    the previous commit makes no call, and a render loop that reads a
    marker other than the source recorded at the previous commit calls
    [setType] with it exactly once. *)
Theorem marker_reaction_once
        (u : url) (earlier : list url) (marker : string) :
  In marker QUERIES -> qs_source (search u) = JString marker ->
  exists s,
    mount qs_source u earlier = Some s
    /\ setType_calls s = [JString marker]
    /\ navigate_calls s = ["/"]
    /\ location s = u
    /\ Modal.isShow (modal s) = true
    /\ (forall n, Nat.iter n (commit qs_source) s = s)
    /\ (forall s0, location s0 = u -> d_source s0 = Some (JString marker) ->
        calls (commit qs_source s0) = calls s0
        /\ pending (commit qs_source s0) = pending s0)
    /\ (forall s0 n s',
          location s0 = u -> d_source s0 = Some (JString marker) ->
          rerender qs_source n s0 = Some s' ->
          calls s' = calls s0)
    /\ (forall s0 n s',
          location s0 = u -> d_source s0 <> Some (JString marker) ->
          rerender qs_source n s0 = Some s' ->
          calls s'
          = (calls s0 ++ [CallSetType (JString marker);
                          CallNavigate "/" {| replace := false |}])%list
          /\ setType_calls s'
             = (setType_calls s0 ++ [JString marker])%list).
Proof.
  intros I H.
  assert (G : forall s0, location s0 = u ->
                         d_source s0 = Some (JString marker) ->
                         calls (commit qs_source s0) = calls s0
                         /\ pending (commit qs_source s0) = pending s0).
  { intros s0 L D. unfold commit, render. rewrite L, H, D.
    cbn [source_changed dep_changed calls pending]. unfold object_is.
    rewrite strict_eq_refl. cbn [negb navigations flat_map].
    now rewrite !app_nil_r. }
  assert (K : forall s0 n s',
             location s0 = u -> d_source s0 = Some (JString marker) ->
             rerender qs_source n s0 = Some s' -> calls s' = calls s0).
  { intros s0 n s' L D R.
    rewrite (rerender_source (JString marker)) in R by (now rewrite L).
    rewrite (rerender_at_recorded _ n s0 D) in R.
    destruct (Modal.rerender n (modal_fiber s0)); [|discriminate R].
    now injection R as <-. }
  assert (N : forall s0 n s',
             location s0 = u -> d_source s0 <> Some (JString marker) ->
             rerender qs_source n s0 = Some s' ->
             calls s'
             = (calls s0 ++ [CallSetType (JString marker);
                             CallNavigate "/" {| replace := false |}])%list
             /\ setType_calls s'
                = (setType_calls s0 ++ [JString marker])%list).
  { intros s0 n s' L D R.
    rewrite (rerender_source (JString marker)) in R by (now rewrite L).
    destruct n as [|n]; [discriminate R|]. rewrite rerender_at_S in R.
    assert (Q : (if source_changed (d_source s0) (JString marker)
                 then effect_source (JString marker) else [])
                = [CallSetType (JString marker);
                   CallNavigate "/" {| replace := false |}]).
    { assert (S : source_changed (d_source s0) (JString marker) = true).
      { cbn [source_changed]. destruct (d_source s0) as [p|]; [|reflexivity].
        cbn [dep_changed]. unfold object_is.
        destruct (strict_eq_spec p (JString marker));
          [congruence|reflexivity]. }
      rewrite S. destruct I as [<-|[<-|[]]]; reflexivity. }
    assert (C : calls s'
                = (calls s0 ++ [CallSetType (JString marker);
                                CallNavigate "/" {| replace := false |}])%list).
    { destruct (Modal.cells_eqb (modal (render (JString marker) s0))
                  (modal s0)).
      - injection R as <-. unfold render. now rewrite Q.
      - rewrite (rerender_at_recorded (JString marker) n
                   (render (JString marker) s0) eq_refl) in R.
        destruct (Modal.rerender n
                    (modal_fiber (render (JString marker) s0)));
          [|discriminate R].
        injection R as <-. unfold render. now rewrite Q. }
    split; [exact C|].
    unfold setType_calls. rewrite C, flat_map_app. reflexivity. }
  destruct I as [<-|[<-|[]]];
    rewrite (mount_source _ u earlier H); evaluate_renders;
    (eexists; split; [reflexivity|]);
    (do 4 (split; [reflexivity|]));
    (split; [|split; [exact G|split; [exact K|exact N]]]);
    intros n; apply iter_fixed; unfold commit;
    cbn [location]; rewrite H; reflexivity.
Qed.

(** C3, as the code has it.  Once the marker has been consumed and the
    navigation asked for by [navigate("/")] is carried out, the location
    on display is the root path with no query string, and reloading the
    page neither calls [setType] nor shows the modal.  The call passes no
    [replace] option: a new history entry is pushed, and the entry with
    the marker stays behind it. *)
Theorem marker_consumed_by_push
        (u : url) (earlier : list url) (marker : string) :
  In marker QUERIES -> qs_source (search u) = JString marker ->
  qs_source "" = JUndefined ->
  exists s s',
    mount qs_source u earlier = Some s
    /\ pending s = [("/", {| replace := false |})]
    /\ complete_navigation PATH_PREFIX qs_source s = Some s'
    /\ location s' = {| pathname := rootPath PATH_PREFIX; search := "" |}
    /\ isRootPath PATH_PREFIX (location s') = true
    /\ back s' = u :: earlier
    /\ pending s' = []
    /\ modal s' = modal s
    /\ calls s' = calls s
    /\ exists r,
        reload qs_source s' = Some r
        /\ calls r = []
        /\ Modal.isShow (modal r) = false.
Proof.
  intros I H E.
  destruct I as [<-|[<-|[]]];
    rewrite (mount_source _ u earlier H); evaluate_renders;
    (eexists; eexists; split; [reflexivity|]);
    (split; [reflexivity|]);
    (split; [unfold complete_navigation; cbn [pending replace];
             rewrite (rerender_source JUndefined) by exact E;
             evaluate_renders; reflexivity|]);
    (split; [reflexivity|]);
    (split; [apply String.eqb_refl|]);
    (split; [reflexivity|]);
    (split; [reflexivity|]);
    (split; [reflexivity|]);
    (split; [reflexivity|]);
    (eexists; split;
     [unfold reload; rewrite (mount_source JUndefined) by exact E;
      evaluate_renders; reflexivity|]);
    split; reflexivity.
Qed.

End ShellFacts.

Lemma unrecognised_source_no_action_witness :
  exists s,
    mount single_source {| pathname := "/"; search := "?source=rss" |} []
    = Some s
    /\ setType_calls s = [] /\ navigate_calls s = []
    /\ pending s = []
    /\ modal_fiber s = Modal.mounted
    /\ location s = {| pathname := "/"; search := "?source=rss" |}
    /\ back s = []
    /\ complete_navigation "" single_source s = Some s
    /\ (forall n, Nat.iter n (commit single_source) s = s).
Proof.
  apply (unrecognised_source_no_action "" single_source
           {| pathname := "/"; search := "?source=rss" |} []).
  intros query [<-|[<-|[]]]; discriminate.
Defined.

Lemma marker_reaction_once_witness :
  exists s,
    mount single_source email_link [] = Some s
    /\ setType_calls s = [JString "email-confirmation"]
    /\ navigate_calls s = ["/"]
    /\ location s = email_link
    /\ Modal.isShow (modal s) = true
    /\ (forall n, Nat.iter n (commit single_source) s = s)
    /\ (forall s0, location s0 = email_link ->
        d_source s0 = Some (JString "email-confirmation") ->
        calls (commit single_source s0) = calls s0
        /\ pending (commit single_source s0) = pending s0)
    /\ (forall s0 n s',
          location s0 = email_link ->
          d_source s0 = Some (JString "email-confirmation") ->
          rerender single_source n s0 = Some s' ->
          calls s' = calls s0)
    /\ (forall s0 n s',
          location s0 = email_link ->
          d_source s0 <> Some (JString "email-confirmation") ->
          rerender single_source n s0 = Some s' ->
          calls s'
          = (calls s0 ++ [CallSetType (JString "email-confirmation");
                          CallNavigate "/" {| replace := false |}])%list
          /\ setType_calls s'
             = (setType_calls s0 ++ [JString "email-confirmation"])%list).
Proof.
  apply (marker_reaction_once single_source email_link []
           Modal.EMAIL_CONFIRMATION).
  - left; reflexivity.
  - reflexivity.
Defined.

Lemma marker_consumed_by_push_witness :
  exists s s',
    mount single_source email_link [] = Some s
    /\ pending s = [("/", {| replace := false |})]
    /\ complete_navigation "" single_source s = Some s'
    /\ location s' = {| pathname := rootPath ""; search := "" |}
    /\ isRootPath "" (location s') = true
    /\ back s' = [email_link]
    /\ pending s' = []
    /\ modal s' = modal s
    /\ calls s' = calls s
    /\ exists r,
        reload single_source s' = Some r
        /\ calls r = []
        /\ Modal.isShow (modal r) = false.
Proof.
  apply (marker_consumed_by_push "" single_source email_link []
           Modal.EMAIL_CONFIRMATION).
  - left; reflexivity.
  - reflexivity.
  - reflexivity.
Defined.

(** C3, as stated, fails: after the marker of [email_link] has been
    consumed, the history holds two entries, the root path and, behind
    it, the entry with the marker, which has not been replaced. *)
Lemma marker_entry_not_replaced :
  exists s s',
    mount single_source email_link [] = Some s
    /\ back s = []
    /\ complete_navigation "" single_source s = Some s'
    /\ location s' = home
    /\ back s' = [email_link]
    /\ back s' <> back s.
Proof.
  eexists. eexists.
  split; [reflexivity|]. split; [reflexivity|].
  split; [reflexivity|]. split; [reflexivity|].
  split; [reflexivity|]. discriminate.
Qed.

End LayoutFacts.

(** * Further properties of the controller *)

Module ModalMore.
Import Modal ModalFacts.

(** ** Render passes from an arbitrary state *)

Lemma fiber_eta (f : fiber) :
  f = {| hooks := hooks f; committed := committed f |}.
Proof. now destruct f. Qed.

Lemma apply_effect_info (c : cells) :
  c_type (apply_updates c (effect_info c)) = c_type c
  /\ c_info (apply_updates c (effect_info c)) = c_info c
  /\ (isShow c = true -> isShow (apply_updates c (effect_info c)) = true).
Proof.
  unfold effect_info, apply_updates.
  destruct (truthy (info_title (c_info c))); cbn; auto.
Qed.

Lemma commit_keeps_key_and_visibility (f : fiber) :
  c_type (hooks (commit f)) = c_type (hooks f)
  /\ (isShow (hooks f) = true -> isShow (hooks (commit f)) = true).
Proof.
  destruct f as [[t i b] [dt di]]. unfold commit, effects, effect_type.
  cbn [hooks committed d_type d_info c_type c_info].
  destruct (dep_changed object_is dt t), (dep_changed info_is di i);
    unfold effect_info, apply_updates;
    cbn [app c_info];
    try destruct (truthy (info_title i)); cbn; auto.
Qed.

(** On a fiber whose recorded key is the key of its cells, a commit
    changes neither the key nor the content. *)
Lemma commit_after_key_commit (c : cells) (i : info_val) :
  deps_of (hooks (commit {| hooks := c;
                            committed := {| d_type := Some (c_type c);
                                            d_info := Some i |} |}))
  = deps_of c.
Proof.
  unfold commit, effects, dep_changed, object_is.
  cbn [hooks committed d_type d_info]. rewrite strict_eq_refl.
  cbn [negb app].
  destruct (negb (info_is i (c_info c))).
  - destruct (apply_effect_info c) as (T & I & _).
    unfold deps_of. now rewrite T, I.
  - reflexivity.
Qed.

Lemma commit_same_deps (f : fiber) :
  committed f = deps_of (hooks f) -> commit f = f.
Proof.
  intros H. rewrite (fiber_eta f), H. apply commit_quiet.
Qed.

(** X3.  No render pass hides the modal or touches the recorded key:
    whatever the state, after any number of commits the key is the same
    and a modal that was on the screen still is.  Only [hide] switches
    visibility off. *)
Theorem render_passes_keep_key_and_visibility (f : fiber) (n : nat) :
  c_type (hooks (Nat.iter n commit f)) = c_type (hooks f)
  /\ (isShow (hooks f) = true ->
      isShow (hooks (Nat.iter n commit f)) = true).
Proof.
  induction n as [|n [IHt IHs]]; [split; auto|].
  rewrite Nat.iter_succ.
  destruct (commit_keeps_key_and_visibility (Nat.iter n commit f)) as [T S].
  split; [congruence|auto].
Qed.

Lemma render_passes_keep_key_and_visibility_witness :
  c_type (hooks (Nat.iter 2 commit
                   {| hooks := {| c_type := JString CONFIRMATION_SUCCESS;
                                  c_info := c_info (hooks showing_email);
                                  isShow := true |};
                      committed := committed showing_email |}))
  = JString CONFIRMATION_SUCCESS
  /\ isShow (hooks (Nat.iter 2 commit
                      {| hooks := {| c_type := JString CONFIRMATION_SUCCESS;
                                     c_info := c_info (hooks showing_email);
                                     isShow := true |};
                         committed := committed showing_email |})) = true.
Proof.
  destruct (render_passes_keep_key_and_visibility
              {| hooks := {| c_type := JString CONFIRMATION_SUCCESS;
                             c_info := c_info (hooks showing_email);
                             isShow := true |};
                 committed := committed showing_email |} 2) as [T S].
  split; [exact T|apply S; reflexivity].
Defined.

Lemma rerender_three (f : fiber) :
  exists f', rerender 3 f = Some f' /\ commit f' = f'.
Proof.
  set (f1 := commit f). set (f2 := commit f1).
  assert (D1 : committed f1
               = {| d_type := Some (c_type (hooks f1));
                    d_info := Some (c_info (hooks f)) |}).
  { destruct (commit_keeps_key_and_visibility f) as [T _].
    fold f1 in T. unfold f1 at 1, commit. cbn [committed]. unfold deps_of.
    now rewrite T. }
  assert (Q2 : commit f2 = f2).
  { apply commit_same_deps. unfold f2. rewrite (fiber_eta f1), D1.
    rewrite commit_after_key_commit. reflexivity. }
  rewrite rerender_S. fold f1.
  destruct (cells_eqb_spec (hooks f1) (hooks f)) as [E|E].
  - exists f1. split; [reflexivity|].
    apply commit_same_deps. rewrite E. reflexivity.
  - rewrite rerender_S. fold f2.
    destruct (cells_eqb_spec (hooks f2) (hooks f1)) as [E'|E'].
    + exists f2. split; [reflexivity|exact Q2].
    + exists f2. rewrite rerender_S, Q2, cells_eqb_refl. now split.
Qed.

(** X4.  From any cells and any recorded dependencies, the render loop of
    [useModal] comes to rest within three passes, in a state that a
    further render leaves as it is: the two effects cannot feed each other
    for ever. *)
Theorem rerender_settles_within_three (f : fiber) :
  exists f', rerender 3 f = Some f' /\ commit f' = f'.
Proof. exact (rerender_three f). Qed.

(** ** How the operations compose *)

Lemma show_reachable (f : fiber) :
  reachable f ->
  show f = Some {| hooks := {| c_type := c_type (hooks f);
                               c_info := c_info (hooks f); isShow := true |};
                   committed := committed f |}.
Proof. intros R. now apply set_isShow_consistent, reachable_consistent. Qed.

(** X1.  [show] puts the modal on the screen whatever the content: the
    recorded key and the content are kept, and the dialog shows the title
    and description of the content there is, both [undefined] when no
    entry has been selected. *)
Theorem show_forces_visibility (f : fiber) :
  reachable f ->
  exists f',
    show f = Some f'
    /\ c_type (hooks f') = c_type (hooks f)
    /\ c_info (hooks f') = c_info (hooks f)
    /\ Modal f' = Some {| v_title := info_title (c_info (hooks f));
                          v_description :=
                            info_description (c_info (hooks f)) |}.
Proof.
  intros R. eexists. split; [now apply show_reachable|].
  repeat split.
Qed.

Lemma show_forces_visibility_witness :
  exists f',
    show mounted = Some f'
    /\ c_type (hooks f') = JNull
    /\ c_info (hooks f') = InfoUndefined
    /\ Modal f' = Some {| v_title := None; v_description := None |}.
Proof.
  apply (show_forces_visibility mounted). exact reachable_mounted.
Defined.

(** X2.  [hide] only switches visibility off: hiding a visible modal and
    calling [show] gives back the very state it was in, with the same
    entry on display, and hiding a second time changes nothing. *)
Theorem hide_then_show_restores (f : fiber) :
  reachable f -> isShow (hooks f) = true ->
  exists f1,
    hide f = Some f1
    /\ isShow (hooks f1) = false
    /\ hide f1 = Some f1
    /\ show f1 = Some f.
Proof.
  intros R S. eexists. split; [now apply hide_reachable|].
  assert (R1 : reachable
                 {| hooks := {| c_type := c_type (hooks f);
                                c_info := c_info (hooks f);
                                isShow := false |};
                    committed := committed f |}).
  { apply (reach_run f OpHide); [exact R|now apply hide_reachable]. }
  split; [reflexivity|]. split.
  - now rewrite (hide_reachable _ R1).
  - rewrite (show_reachable _ R1). cbn [hooks committed c_type c_info].
    destruct f as [[t i b] d]. cbn in S. now subst b.
Qed.

Lemma hide_then_show_restores_witness :
  exists f1,
    hide showing_email = Some f1
    /\ isShow (hooks f1) = false
    /\ hide f1 = Some f1
    /\ show f1 = Some showing_email.
Proof.
  apply (hide_then_show_restores showing_email).
  - exact reachable_showing_email.
  - reflexivity.
Defined.

Lemma unknown_not_valid (k : jsval) : unknown_key k -> ~ valid_key k.
Proof. intros [U1 U2] [V|V]; congruence. Qed.

(** Distinct keys of the table have distinct entries. *)
Lemma content_of_valid_inj (k t : jsval) :
  valid_key k -> content_of k = content_of t -> k = t.
Proof.
  intros V E.
  destruct (content_of_cases k) as [(_ & e & _ & Ke & Ce & _)|[U _]];
    [|now apply unknown_not_valid in U].
  destruct (content_of_cases t) as [(_ & e' & _ & Te & Ce' & _)|[_ Ct]];
    congruence.
Qed.

Lemma visible_after_setType (f f' : fiber) (k : jsval) :
  reachable f -> setType k f = Some f' ->
  (isShow (hooks f') = true
   <-> isShow (hooks f) = true \/ (valid_key k /\ k <> c_type (hooks f))).
Proof.
  intros R H. rewrite (setType_reachable k f R) in H. injection H as <-.
  destruct (reachable_consistent f R) as [_ Hi].
  unfold after_setType, object_is. cbn [hooks isShow].
  destruct (strict_eq_spec k (c_type (hooks f))) as [E|N].
  { split; [now left|]. intros [S|[_ N]]; [exact S|contradiction]. }
  destruct (info_is_spec (content_of k) (c_info (hooks f))) as [E|D].
  { rewrite Hi in E. split; [now left|].
    intros [S|[V _]]; [exact S|].
    exfalso. apply N. now apply content_of_valid_inj. }
  destruct (content_of_cases k) as [(V & _ & _ & _ & _ & T)|[U C]].
  - rewrite T. split; [intros _; right; now split|reflexivity].
  - rewrite C. cbn [info_title truthy]. split; [now left|].
    intros [S|[V _]]; [exact S|]. now apply unknown_not_valid in U.
Qed.


(** X5.  When [setType k] has settled, the modal is on the screen exactly
    when it already was, or when [k] is a key of the table other than the
    recorded one. *)
Theorem setType_visible_iff (f f' : fiber) (k : jsval) :
  reachable f -> setType k f = Some f' ->
  (isShow (hooks f') = true
   <-> isShow (hooks f) = true \/ (valid_key k /\ k <> c_type (hooks f))).
Proof. exact (visible_after_setType f f' k). Qed.

Lemma setType_visible_iff_witness :
  isShow (hooks dismissed_email) = true
  <-> isShow (hooks dismissed_email) = true
      \/ (valid_key (JString EMAIL_CONFIRMATION)
          /\ JString EMAIL_CONFIRMATION <> c_type (hooks dismissed_email)).
Proof.
  apply (setType_visible_iff dismissed_email dismissed_email
           (JString EMAIL_CONFIRMATION)).
  - apply (reach_run showing_email OpHide);
      [exact reachable_showing_email|reflexivity].
  - reflexivity.
Defined.

Lemma modal_of_entry (c : cells) (d : deps) (e : entry) :
  isShow c = true -> c_info c = InfoEntry e ->
  Modal {| hooks := c; committed := d |}
  = Some {| v_title := Some (title e);
            v_description := Some (description e) |}.
Proof. intros S I. unfold Modal. cbn [hooks]. now rewrite S, I. Qed.

(** X6.  While the modal is on the screen, [setType] with the key of any
    entry of the table ends with that entry on display, whether the key
    was the recorded one or not; at no render pass in between is the
    modal hidden (X3). *)
Theorem setType_while_visible_shows_entry (f : fiber) (e : entry) :
  reachable f -> isShow (hooks f) = true -> In e MODAL_DATA ->
  exists f',
    setType (JString (type e)) f = Some f'
    /\ Modal f' = Some {| v_title := Some (title e);
                          v_description := Some (description e) |}.
Proof.
  intros R S I.
  pose proof (setType_reachable (JString (type e)) f R) as H.
  eexists. split; [exact H|].
  apply modal_of_entry.
  - apply (visible_after_setType f _ (JString (type e)) R H). now left.
  - cbn [after_setType c_info]. now apply content_of_entry.
Qed.

Lemma setType_while_visible_shows_entry_witness :
  exists f',
    setType (JString CONFIRMATION_SUCCESS) showing_email = Some f'
    /\ Modal f' = Some {| v_title := Some "Done!";
                          v_description := Some "Thanks for subscribing!" |}.
Proof.
  apply (setType_while_visible_shows_entry showing_email
           {| type := CONFIRMATION_SUCCESS; title := "Done!";
              description := "Thanks for subscribing!" |}).
  - exact reachable_showing_email.
  - reflexivity.
  - right; left; reflexivity.
Defined.

(** X8.  In any state, hidden or not and whatever the recorded key, when
    [setType] with a key no entry has (such as [null]) has been followed
    by its renders, a later [setType] with the key of an entry ends with
    that entry on display: this is how a message dismissed earlier can be
    shown again.  The render in between is needed: when the two calls are
    made in one handler, so that their updates are applied together, and
    the key of the entry is the recorded one, the state is left as it is
    and nothing is shown again. *)
Theorem setType_after_reset_shows_entry
        (f : fiber) (k0 : jsval) (e : entry) :
  reachable f -> unknown_key k0 -> In e MODAL_DATA ->
  (exists f1 f2,
     setType k0 f = Some f1
     /\ setType (JString (type e)) f1 = Some f2
     /\ Modal f2 = Some {| v_title := Some (title e);
                           v_description := Some (description e) |})
  /\ (c_type (hooks f) = JString (type e) ->
      dispatch [SetType k0; SetType (JString (type e))] f = Some f).
Proof.
  intros R U I. split.
  - pose proof (setType_reachable k0 f R) as H1.
    assert (R1 : reachable
                   {| hooks := after_setType k0 (hooks f);
                      committed := deps_of (after_setType k0 (hooks f)) |})
      by exact (reach_run f (OpSetType k0) _ R H1).
    pose proof (setType_reachable (JString (type e)) _ R1) as H2.
    eexists. eexists. split; [exact H1|]. split; [exact H2|].
    apply modal_of_entry.
    + apply (visible_after_setType _ _ (JString (type e)) R1 H2). right.
      cbn [hooks after_setType c_type]. split.
      * destruct I as [<-|[<-|[]]]; [now left|now right].
      * intros E. apply (proj1 (unknown_key_no_entry k0) U e I).
        now symmetry.
    + cbn [after_setType c_info]. now apply content_of_entry.
  - intros T. unfold dispatch, apply_updates.
    cbn [fold_left apply_update c_type c_info isShow].
    destruct f as [[t i b] d]. cbn [hooks c_type c_info isShow] in *.
    subst t. now rewrite cells_eqb_refl.
Qed.

Lemma setType_after_reset_shows_entry_witness :
  (exists f1 f2,
     setType JNull dismissed_email = Some f1
     /\ setType (JString EMAIL_CONFIRMATION) f1 = Some f2
     /\ Modal f2
        = Some {| v_title := Some "Success!";
                  v_description :=
                    Some "Now check your email to confirm your subscription" |})
  /\ dispatch [SetType JNull; SetType (JString EMAIL_CONFIRMATION)]
       dismissed_email
     = Some dismissed_email.
Proof.
  destruct (setType_after_reset_shows_entry dismissed_email JNull
              {| type := EMAIL_CONFIRMATION; title := "Success!";
                 description :=
                   "Now check your email to confirm your subscription" |})
    as [A B].
  - apply (reach_run showing_email OpHide);
      [exact reachable_showing_email|reflexivity].
  - split; discriminate.
  - left; reflexivity.
  - split; [exact A|apply B; reflexivity].
Defined.

(** ** Clicks *)

(** X7.  A click on any element of the visible modal leaves the recorded
    key and the content as they are, and it hides the modal exactly when
    its target is the backdrop itself or lies in the close button or in
    the OK button; on any other target the state is unchanged. *)
Theorem click_hides_iff (f : fiber) (target : element) :
  reachable f -> isShow (hooks f) = true ->
  exists f',
    click target f = Some f'
    /\ c_type (hooks f') = c_type (hooks f)
    /\ c_info (hooks f') = c_info (hooks f)
    /\ (isShow (hooks f') = false
        <-> target = Backdrop \/ inside CloseButton target = true
            \/ inside OkButton target = true)
    /\ (isShow (hooks f') = true -> f' = f).
Proof.
  intros R S. unfold click. rewrite S.
  destruct target; cbn [click_updates];
    match goal with
    | |- context [dispatch ?q f] =>
        let v := eval vm_compute in q in change q with v
    end;
    first
      [ rewrite dispatch_nothing; exists f;
        split; [reflexivity|]; split; [reflexivity|]; split; [reflexivity|];
        split; [|reflexivity];
        rewrite S; split;
        [discriminate|intros [E|[E|E]]; discriminate E]
      | fold (hide f); rewrite (hide_reachable f R); eexists;
        split; [reflexivity|]; split; [reflexivity|]; split; [reflexivity|];
        split; [|discriminate];
        split; [intros _; vm_compute; tauto|reflexivity] ].
Qed.

Lemma click_hides_iff_witness :
  exists f',
    click Header showing_email = Some f'
    /\ c_type (hooks f') = c_type (hooks showing_email)
    /\ c_info (hooks f') = c_info (hooks showing_email)
    /\ (isShow (hooks f') = false
        <-> Header = Backdrop \/ inside CloseButton Header = true
            \/ inside OkButton Header = true)
    /\ (isShow (hooks f') = true -> f' = showing_email).
Proof.
  apply (click_hides_iff showing_email Header).
  - exact reachable_showing_email.
  - reflexivity.
Defined.

End ModalMore.

(** * Further properties of the page shell *)

Module LayoutMore.
Import Layout LayoutFacts.
Local Open Scope list_scope.

Lemma effect_source_cases (source : jsval) :
  effect_source source = []
  \/ exists marker,
      In marker QUERIES /\ source = JString marker
      /\ effect_source source
         = [CallSetType (JString marker);
            CallNavigate "/" {| replace := false |}].
Proof.
  unfold effect_source, QUERIES. cbn [existsb].
  destruct (strict_eq_spec (JString Modal.EMAIL_CONFIRMATION) source) as [E|E].
  - right. exists Modal.EMAIL_CONFIRMATION. subst source.
    repeat split. now left.
  - destruct (strict_eq_spec (JString Modal.CONFIRMATION_SUCCESS) source)
      as [E'|E'].
    + right. exists Modal.CONFIRMATION_SUCCESS. subst source.
      repeat split. right; now left.
    + now left.
Qed.

Section ShellMore.

Variable qs_source : string -> jsval.

(** X9.  Whatever the state of the shell and the location, one render
    loop never touches the location or the history and makes at most one
    reaction: its calls are none at all, or [setType] with the marker read
    from the location, a member of [QUERIES], followed by
    [navigate("/")] without options; the pending navigations grow by
    exactly the [navigate] calls made. *)
Theorem render_loop_reacts_at_most_once (n : nat) (s s' : shell) :
  rerender qs_source n s = Some s' ->
  location s' = location s
  /\ back s' = back s
  /\ exists q,
      calls s' = calls s ++ q
      /\ pending s' = pending s ++ navigations q
      /\ (q = []
          \/ exists marker,
              In marker QUERIES
              /\ qs_source (search (location s)) = JString marker
              /\ q = [CallSetType (JString marker);
                      CallNavigate "/" {| replace := false |}]).
Proof.
  intros H.
  rewrite (rerender_source qs_source _ n s eq_refl) in H.
  set (source := qs_source (search (location s))) in *.
  destruct n as [|n]; [discriminate H|]. cbn [rerender_at] in H.
  set (q := if source_changed (d_source s) source
            then effect_source source else []).
  assert (Q : q = []
              \/ exists marker,
                  In marker QUERIES /\ source = JString marker
                  /\ q = [CallSetType (JString marker);
                          CallNavigate "/" {| replace := false |}]).
  { unfold q. destruct (source_changed (d_source s) source); [|now left].
    destruct (effect_source_cases source) as [E|(m & I & E & R)];
      [now left|right; now exists m]. }
  assert (F : forall t, (t = render source s
                         \/ exists f, t = with_modal (render source s) source f)
                        -> location t = location s /\ back t = back s
                           /\ calls t = calls s ++ q
                           /\ pending t = pending s ++ navigations q).
  { intros t [->|[f ->]]; repeat split. }
  destruct (Modal.cells_eqb (modal (render source s)) (modal s)).
  - injection H as <-.
    destruct (F (render source s)) as (L & B & C & P); [now left|].
    split; [exact L|]. split; [exact B|]. now exists q.
  - rewrite (rerender_at_recorded source n (render source s) eq_refl) in H.
    destruct (Modal.rerender n (modal_fiber (render source s))) as [f|];
      [|discriminate H].
    injection H as <-.
    destruct (F (with_modal (render source s) source f))
      as (L & B & C & P); [right; now exists f|].
    split; [exact L|]. split; [exact B|]. now exists q.
Qed.

(** X10.  From any state of the shell and at any location, the render
    loop comes to rest within four passes, in a state that a further
    render leaves as it is. *)
Theorem shell_rerender_settles_within_four (s : shell) :
  exists s', rerender qs_source 4 s = Some s' /\ commit qs_source s' = s'.
Proof.
  rewrite (rerender_source qs_source _ 4 s eq_refl). unfold commit.
  set (source := qs_source (search (location s))).
  rewrite rerender_at_S.
  assert (R : forall f, Modal.commit f = f ->
                        render source (with_modal (render source s) source f)
                        = with_modal (render source s) source f).
  { intros f C. rewrite render_recorded by reflexivity.
    unfold modal_fiber. cbn [with_modal modal modal_deps].
    rewrite <- (ModalMore.fiber_eta f), C. reflexivity. }
  destruct (ModalFacts.cells_eqb_spec (modal (render source s)) (modal s))
    as [E|E].
  - exists (render source s). split; [reflexivity|].
    change (render source
              (with_modal (render source s) source
                 (modal_fiber (render source s)))
            = with_modal (render source s) source
                (modal_fiber (render source s))).
    apply R.
    apply ModalMore.commit_same_deps.
    unfold modal_fiber. cbn [Modal.hooks Modal.committed].
    rewrite E. reflexivity.
  - rewrite (rerender_at_recorded source 3 (render source s) eq_refl).
    destruct (ModalMore.rerender_three (modal_fiber (render source s)))
      as (f & H & C).
    rewrite H. cbn [option_map].
    exists (with_modal (render source s) source f). split; [reflexivity|].
    change (render source (with_modal (render source s) source f)
            = with_modal (render source s) source f).
    now apply R.
Qed.

(** X11.  Loading the page at a location whose query parameter is the key
    of an entry of [MODAL_DATA] ends with the modal on the screen showing
    the title and description of that entry. *)
Theorem mount_marker_shows_entry
        (u : url) (earlier : list url) (e : Modal.entry) :
  In e Modal.MODAL_DATA ->
  qs_source (search u) = JString (Modal.type e) ->
  exists s,
    mount qs_source u earlier = Some s
    /\ Modal.Modal (modal_fiber s)
       = Some {| Modal.v_title := Some (Modal.title e);
                 Modal.v_description := Some (Modal.description e) |}.
Proof.
  intros I H.
  destruct I as [<-|[<-|[]]];
    rewrite (mount_source _ _ u earlier H); evaluate_renders;
    eexists; split; reflexivity.
Qed.

(** X12.  When the shell renders at a location whose marker is already
    the recorded key, and that marker was not the source of the previous
    commit (the same confirmation address reached again while the shell
    stays mounted), the effect calls [setType] and [navigate("/")] once
    more, but the controller does not change: a modal that was dismissed
    stays hidden. *)
Theorem recorded_marker_again_changes_nothing
        (n : nat) (s : shell) (marker : string) :
  In marker QUERIES ->
  qs_source (search (location s)) = JString marker ->
  d_source s <> Some (JString marker) ->
  Modal.c_type (modal s) = JString marker ->
  modal_deps s = Modal.deps_of (modal s) ->
  exists s',
    rerender qs_source (S n) s = Some s'
    /\ modal s' = modal s
    /\ setType_calls s' = setType_calls s ++ [JString marker]
    /\ navigate_calls s' = navigate_calls s ++ ["/"]
    /\ pending s' = pending s ++ [("/", {| replace := false |})].
Proof.
  intros I H D T C.
  rewrite (rerender_source qs_source _ (S n) s H). cbn [rerender_at].
  assert (Q : (if source_changed (d_source s) (JString marker)
               then effect_source (JString marker) else [])
              = [CallSetType (JString marker);
                 CallNavigate "/" {| replace := false |}]).
  { assert (S : source_changed (d_source s) (JString marker) = true).
    { cbn [source_changed]. destruct (d_source s) as [p|]; [|reflexivity].
      cbn [dep_changed]. unfold object_is.
      destruct (strict_eq_spec p (JString marker)); [congruence|reflexivity]. }
    rewrite S. destruct I as [<-|[<-|[]]]; reflexivity. }
  assert (M : modal (render (JString marker) s) = modal s).
  { unfold render. rewrite Q, C.
    cbn [modal modal_updates flat_map app].
    destruct (modal s) as [t i b]. cbn in T. subst t.
    unfold Modal.effects, Modal.deps_of, dep_changed, object_is.
    cbn [Modal.d_type Modal.d_info Modal.c_type Modal.c_info].
    rewrite strict_eq_refl, ModalFacts.info_is_refl. reflexivity. }
  rewrite M, ModalFacts.cells_eqb_refl.
  eexists. split; [reflexivity|]. split; [exact M|].
  unfold setType_calls, navigate_calls, render. rewrite Q.
  cbn [calls pending navigations]. rewrite !flat_map_app.
  repeat split.
Qed.

End ShellMore.

Lemma render_loop_reacts_at_most_once_witness :
  location
    {| modal := Modal.hooks Modal.showing_email;
       modal_deps := Modal.committed Modal.showing_email;
       d_source := Some (JString "email-confirmation");
       location := email_link;
       back := [];
       pending := [("/", {| replace := false |})];
       calls := [CallSetType (JString "email-confirmation");
                 CallNavigate "/" {| replace := false |}] |}
  = location (initial email_link [])
  /\ back
       {| modal := Modal.hooks Modal.showing_email;
          modal_deps := Modal.committed Modal.showing_email;
          d_source := Some (JString "email-confirmation");
          location := email_link;
          back := [];
          pending := [("/", {| replace := false |})];
          calls := [CallSetType (JString "email-confirmation");
                    CallNavigate "/" {| replace := false |}] |}
     = back (initial email_link [])
  /\ exists q,
      [CallSetType (JString "email-confirmation");
       CallNavigate "/" {| replace := false |}]
      = calls (initial email_link []) ++ q
      /\ [("/", {| replace := false |})]
         = pending (initial email_link []) ++ navigations q
      /\ (q = []
          \/ exists marker,
              In marker QUERIES
              /\ single_source (search (location (initial email_link [])))
                 = JString marker
              /\ q = [CallSetType (JString marker);
                      CallNavigate "/" {| replace := false |}]).
Proof.
  apply (render_loop_reacts_at_most_once single_source Modal.render_budget
           (initial email_link [])
           {| modal := Modal.hooks Modal.showing_email;
              modal_deps := Modal.committed Modal.showing_email;
              d_source := Some (JString "email-confirmation");
              location := email_link;
              back := [];
              pending := [("/", {| replace := false |})];
              calls := [CallSetType (JString "email-confirmation");
                        CallNavigate "/" {| replace := false |}] |}).
  reflexivity.
Defined.

Lemma mount_marker_shows_entry_witness :
  exists s,
    mount single_source
      {| pathname := "/"; search := "?source=confirmation-success" |} []
    = Some s
    /\ Modal.Modal (modal_fiber s)
       = Some {| Modal.v_title := Some "Done!";
                 Modal.v_description := Some "Thanks for subscribing!" |}.
Proof.
  apply (mount_marker_shows_entry single_source
           {| pathname := "/"; search := "?source=confirmation-success" |} []
           {| Modal.type := Modal.CONFIRMATION_SUCCESS;
              Modal.title := "Done!";
              Modal.description := "Thanks for subscribing!" |}).
  - right; left; reflexivity.
  - reflexivity.
Defined.

Lemma recorded_marker_again_changes_nothing_witness :
  exists s',
    rerender single_source 1
      {| modal := Modal.hooks Modal.dismissed_email;
         modal_deps := Modal.committed Modal.dismissed_email;
         d_source := Some JUndefined;
         location := email_link;
         back := [home; email_link];
         pending := [];
         calls := [CallSetType (JString "email-confirmation");
                   CallNavigate "/" {| replace := false |}] |}
    = Some s'
    /\ modal s' = Modal.hooks Modal.dismissed_email
    /\ setType_calls s' = [JString "email-confirmation";
                           JString "email-confirmation"]
    /\ navigate_calls s' = ["/"; "/"]
    /\ pending s' = [("/", {| replace := false |})].
Proof.
  apply (recorded_marker_again_changes_nothing single_source 0
           {| modal := Modal.hooks Modal.dismissed_email;
              modal_deps := Modal.committed Modal.dismissed_email;
              d_source := Some JUndefined;
              location := email_link;
              back := [home; email_link];
              pending := [];
              calls := [CallSetType (JString "email-confirmation");
                        CallNavigate "/" {| replace := false |}] |}
           Modal.EMAIL_CONFIRMATION).
  - left; reflexivity.
  - reflexivity.
  - discriminate.
  - reflexivity.
  - reflexivity.
Defined.

End LayoutMore.
